(** * download_satellite_data: selector-to-object resolution

    A shallow embedding of the code cells of
    [download_satellite_data.ipynb] and of the Python operations they
    call.  Python [int] is [Z]; Python [str] is [string], whose
    characters are the code points below 256; a Python exception is the
    [Raise] outcome of [result]. *)

From Stdlib Require Import ZArith List String Ascii Bool Lia.
Import ListNotations.

Local Open Scope string_scope.
Local Open Scope Z_scope.

(** ** Python values and built-in operations *)

Module Py.

Inductive exn : Type :=
| IndexError
| KeyError
| ValueError
| ConnectionError.

Inductive result (A : Type) : Type :=
| Ok (a : A)
| Raise (e : exn).

Arguments Ok {A} a.
Arguments Raise {A} e.

Definition bind {A B : Type} (r : result A) (k : A -> result B) : result B :=
  match r with
  | Ok a => k a
  | Raise e => Raise e
  end.

(** [len(s)] *)
Definition len (s : string) : Z := Z.of_nat (String.length s).

(** [c * n] for a one-character string [c]. *)
Fixpoint repeat_char (c : ascii) (n : nat) : string :=
  match n with
  | O => EmptyString
  | S n' => String c (repeat_char c n')
  end.

(** The character of a decimal digit [0..9]. *)
Definition digit_char (d : Z) : ascii := ascii_of_N (Z.to_N (48 + d)).

(** Decimal digits of a non-negative integer, most significant first.
    [fuel] bounds the number of digits produced. *)
Fixpoint digits_fuel (fuel : nat) (n : Z) (acc : string) : string :=
  match fuel with
  | O => acc
  | S fuel' =>
      let acc' := String (digit_char (n mod 10)) acc in
      if n <? 10 then acc' else digits_fuel fuel' (n / 10) acc'
  end.

(** The fuel [1 + log2 n] covers every decimal digit of [n]. *)
Definition digits (n : Z) : string :=
  digits_fuel (S (Z.to_nat (Z.log2 n))) n EmptyString.

(** [str(v)] for an [int]. *)
Definition str (v : Z) : string :=
  if v <? 0 then String "-" (digits (- v)) else digits v.

Definition is_sign (c : ascii) : bool :=
  (Ascii.eqb c "+" || Ascii.eqb c "-")%bool.

(** [s.zfill(width)]: the string is returned unchanged when it is
    already [width] long or longer; otherwise zeros are put in front,
    after a leading sign if there is one. *)
Definition zfill (s : string) (width : Z) : string :=
  if width <=? len s then s
  else
    let fill := Z.to_nat (width - len s) in
    match s with
    | String c rest =>
        if is_sign c then String c (repeat_char "0" fill ++ rest)
        else repeat_char "0" fill ++ s
    | EmptyString => repeat_char "0" fill
    end.

(** [s.split(sep)] for a one-character separator: every occurrence
    splits, so the result is never empty. *)
Fixpoint split (sep : ascii) (s : string) : list string :=
  match s with
  | EmptyString => [EmptyString]
  | String c rest =>
      if Ascii.eqb c sep then EmptyString :: split sep rest
      else
        match split sep rest with
        | tok :: toks => String c tok :: toks
        | [] => [String c EmptyString]
        end
  end.

(** [l[i]]: a negative index counts from the end; out of range raises. *)
Definition getitem {A : Type} (l : list A) (i : Z) : result A :=
  let n := Z.of_nat (List.length l) in
  let j := if i <? 0 then i + n else i in
  if ((j <? 0) || (n <=? j))%bool then Raise IndexError
  else
    match nth_error l (Z.to_nat j) with
    | Some x => Ok x
    | None => Raise IndexError
    end.

(** [s[a:b]] for literal bounds [0 <= a <= b]: both bounds are clipped
    to the length of [s]; nothing is raised. *)
Definition slice (s : string) (a b : nat) : string :=
  String.substring a (b - a) s.

(** Rich comparisons of [str]: lexicographic on code points. *)
Definition str_ge (x y : string) : bool :=
  match String.compare x y with
  | Lt => false
  | _ => true
  end.

Definition str_le (x y : string) : bool :=
  match String.compare x y with
  | Gt => false
  | _ => true
  end.

(** [[x for x in xs if cond(x)]]: the condition is evaluated on the
    elements in order; the first exception ends the comprehension. *)
Fixpoint comprehension {A : Type} (cond : A -> result bool) (xs : list A)
  : result (list A) :=
  match xs with
  | [] => Ok []
  | x :: rest =>
      bind (cond x) (fun b =>
      bind (comprehension cond rest) (fun kept =>
      Ok (if b then x :: kept else kept)))
  end.

End Py.

Import Py.

Notation "x <- c ;; k" := (bind c (fun x => k))
  (at level 61, c at next level, right associativity).

(** ** Reading digit strings (specification side) *)

Definition is_digit (c : ascii) : bool :=
  ((48 <=? Z.of_N (N_of_ascii c)) && (Z.of_N (N_of_ascii c) <=? 57))%bool.

Definition digit_val (c : ascii) : Z := Z.of_N (N_of_ascii c) - 48.

Fixpoint all_digits (s : string) : bool :=
  match s with
  | EmptyString => true
  | String c rest => (is_digit c && all_digits rest)%bool
  end.

(** The number a digit string denotes, read left to right from [acc]. *)
Fixpoint value_from (acc : Z) (s : string) : Z :=
  match s with
  | EmptyString => acc
  | String c rest => value_from (10 * acc + digit_val c) rest
  end.

Definition value (s : string) : Z := value_from 0 s.


(** ** Key Builder (cells 15, 26 and 34) *)

Module KeyBuilder.

(** One integer path segment: [str(v).zfill(w)]. *)
Definition segment (v w : Z) : string := zfill (str v) w.

(** [data_path] of the GOES-R bucket. *)
Definition data_path (bucket product : string) (year julian hour : Z)
  : string :=
  bucket ++ "/" ++ product ++ "/" ++ str year ++ "/" ++ segment julian 3
    ++ "/" ++ segment hour 2.

(** [files_path] of the JPSS bucket. *)
Definition files_path (bucket satellite sensor product : string)
  (year month day : Z) : string :=
  bucket ++ "/" ++ satellite ++ "/" ++ sensor ++ "/" ++ product ++ "/"
    ++ str year ++ "/" ++ segment month 2 ++ "/" ++ segment day 2.

End KeyBuilder.

(** ** Calendar Resolver (cell 13)

    [julian_day = datetime.datetime(year, month, day).strftime('%j')].
    The definitions of this module follow the [datetime] module of the
    Python standard library, which the cell calls. *)

Module Datetime.

Definition MINYEAR : Z := 1.
Definition MAXYEAR : Z := 9999.

(** Index 0 is a placeholder, so that a month indexes its own length. *)
Definition DAYS_IN_MONTH : list Z :=
  [-1; 31; 28; 31; 30; 31; 30; 31; 31; 30; 31; 30; 31].

(** The running sums of [DAYS_IN_MONTH[1:]], after the placeholder. *)
Fixpoint running_sums (dbm : Z) (dims : list Z) : list Z :=
  match dims with
  | [] => []
  | dim :: rest => dbm :: running_sums (dbm + dim) rest
  end.

Definition DAYS_BEFORE_MONTH : list Z :=
  -1 :: running_sums 0 (tl DAYS_IN_MONTH).

Definition is_leap (year : Z) : bool :=
  ((year mod 4 =? 0)
   && (negb (year mod 100 =? 0) || (year mod 400 =? 0)))%bool.

Definition days_in_month (year month : Z) : Z :=
  if ((month =? 2) && is_leap year)%bool then 29
  else nth (Z.to_nat month) DAYS_IN_MONTH 0.

Definition days_before_month (year month : Z) : Z :=
  nth (Z.to_nat month) DAYS_BEFORE_MONTH 0
  + (if ((2 <? month) && is_leap year)%bool then 1 else 0).

Record datetime : Type := mk_datetime {
  dt_year : Z;
  dt_month : Z;
  dt_day : Z
}.

(** The constructor checks its fields and raises [ValueError]. *)
Definition new_datetime (year month day : Z) : result datetime :=
  if negb ((MINYEAR <=? year) && (year <=? MAXYEAR)) then Raise ValueError
  else if negb ((1 <=? month) && (month <=? 12)) then Raise ValueError
  else if negb ((1 <=? day) && (day <=? days_in_month year month))
  then Raise ValueError
  else Ok (mk_datetime year month day).

(** [tm_yday] of [timetuple()]. *)
Definition yday (dt : datetime) : Z :=
  days_before_month (dt_year dt) (dt_month dt) + dt_day dt.

(** [strftime('%j')]: the day of the year as a decimal number padded
    with zeros to three characters. *)
Definition strftime_j (dt : datetime) : string := zfill (str (yday dt)) 3.

End Datetime.

Definition julian_day (year month day : Z) : result string :=
  dt <- Datetime.new_datetime year month day ;;
  Ok (Datetime.strftime_j dt).

(** The calendar in the words of the specification. *)

Definition divisible (n d : Z) : bool := n mod d =? 0.

(** A leap year is divisible by 4, and not by 100 unless also by 400. *)
Definition gregorian_leap (year : Z) : bool :=
  (divisible year 4
   && negb (divisible year 100 && negb (divisible year 400)))%bool.

Definition month_length (leap : bool) (month : Z) : Z :=
  match month with
  | 4 | 6 | 9 | 11 => 30
  | 2 => if leap then 29 else 28
  | _ => 31
  end.

(** Days elapsed since the start of the year, up to and including
    [day] of [month]. *)
Definition days_elapsed (leap : bool) (month day : Z) : Z :=
  fold_right Z.add day
    (map (fun k => month_length leap (Z.of_nat k))
       (seq 1 (Z.to_nat month - 1))).

Definition in_month (leap : bool) (month day : Z) : Prop :=
  1 <= month <= 12 /\ 1 <= day <= month_length leap month.

Definition valid_date (year month day : Z) : Prop :=
  Datetime.MINYEAR <= year <= Datetime.MAXYEAR
  /\ in_month (gregorian_leap year) month day.

(** ** Filename Field Extractor (expressions of cells 17, 28 and 36) *)

Module Extractor.

(** [file.split('/')[-1]] *)
Definition basename (file : string) : result string :=
  getitem (split "/" file) (-1).

(** [file.split('/')[-1].split('_')[3]] *)
Definition time_token (file : string) : result string :=
  name <- basename file ;;
  getitem (split "_" name) 3.

(** [file.split('/')[-1].split('_')[3][8:12]] *)
Definition abi_start_time (file : string) : result string :=
  tok <- time_token file ;;
  Ok (slice tok 8 12).

(** [file.split('/')[-1].split('-')[2]] *)
Definition abi_product_name (file : string) : result string :=
  name <- basename file ;;
  getitem (split "-" name) 2.

(** [file.split('/')[-1].split('_')[3][9:16]] *)
Definition nucaps_start_time (file : string) : result string :=
  tok <- time_token file ;;
  Ok (slice tok 9 16).

(** [file.split('/')[-1].split('_')[3][9:13]] *)
Definition viirs_start_time (file : string) : result string :=
  tok <- time_token file ;;
  Ok (slice tok 9 13).

End Extractor.

(** The ['_']-delimited tokens of the last path segment of [file]. *)
Definition tokens (file : string) : list string :=
  split "_" (last (split "/" file) EmptyString).

(** ** Match Selector (list comprehensions of cells 17, 28 and 36) *)

Module Selector.

(** [a and b] evaluates [b] only when [a] is true. *)
Definition and_then (a : result bool) (b : result bool) : result bool :=
  x <- a ;;
  if x then b else Ok false.

Definition abi_cond (observation_time product_name file : string)
  : result bool :=
  and_then
    (t <- Extractor.abi_start_time file ;; Ok (String.eqb t observation_time))
    (p <- Extractor.abi_product_name file ;; Ok (String.eqb p product_name)).

Definition abi_matches (observation_time product_name : string)
  (files : list string) : result (list string) :=
  comprehension (abi_cond observation_time product_name) files.

Definition nucaps_cond (observation_time file : string) : result bool :=
  t <- Extractor.nucaps_start_time file ;;
  Ok (String.eqb t observation_time).

Definition nucaps_matches (observation_time : string) (files : list string)
  : result (list string) :=
  comprehension (nucaps_cond observation_time) files.

(** The test of the range match on an extracted substring [t]. *)
Definition in_range (start_time end_time t : string) : bool :=
  (str_ge t start_time && str_le t end_time)%bool.

Definition viirs_cond (start_time end_time file : string) : result bool :=
  and_then
    (t <- Extractor.viirs_start_time file ;; Ok (str_ge t start_time))
    (t <- Extractor.viirs_start_time file ;; Ok (str_le t end_time)).

Definition viirs_matches (start_time end_time : string)
  (files : list string) : result (list string) :=
  comprehension (viirs_cond start_time end_time) files.

End Selector.

(** ** Probe of one object on the web archive (cells 41 to 47) *)

Module Probe.







End Probe.

(** ** Sample data and auxiliary notions *)

(** The file that cell 17 selects. *)
Definition mcmipm_file : string :=
  "noaa-goes16/ABI-L2-MCMIPM/2022/336/20/OR_ABI-L2-MCMIPM2-M6_G16_s20223362030550_e20223362030550_c20223362031040.nc".

(** Four names of VIIRS active-fire files, with start times 21:15,
    21:16, 21:18 and 21:20. *)
Definition af_files : list string :=
  ["noaa-jpss/NOAA20/VIIRS/NOAA20_VIIRS_AF_I-Band_EDR_NRT/2022/10/16/AF-Iband_v1r0_j01_s202210162115000_e202210162116245_c202210162145003.nc";
   "noaa-jpss/NOAA20/VIIRS/NOAA20_VIIRS_AF_I-Band_EDR_NRT/2022/10/16/AF-Iband_v1r0_j01_s202210162116257_e202210162117502_c202210162145124.nc";
   "noaa-jpss/NOAA20/VIIRS/NOAA20_VIIRS_AF_I-Band_EDR_NRT/2022/10/16/AF-Iband_v1r0_j01_s202210162118010_e202210162119255_c202210162145335.nc";
   "noaa-jpss/NOAA20/VIIRS/NOAA20_VIIRS_AF_I-Band_EDR_NRT/2022/10/16/AF-Iband_v1r0_j01_s202210162120000_e202210162121245_c202210162146001.nc"].



(** ** Printed previews of a listing (cells 11, 15, 26 and 34) *)

Module Preview.

(** [files[:n]] *)
Definition first_n {A : Type} (n : nat) (files : list A) : list A :=
  firstn n files.

(** [files[-n:]] for a literal [n > 0]. *)
Definition last_n {A : Type} (n : nat) (files : list A) : list A :=
  skipn (List.length files - n) files.

(** [for file in files: print(file.split('/')[-1])]: the lines printed. *)
Fixpoint print_names (files : list string) : result (list string) :=
  match files with
  | [] => Ok []
  | file :: rest =>
      name <- Extractor.basename file ;;
      lines <- print_names rest ;;
      Ok (name :: lines)
  end.

(** The two loops of cell 15. *)
Definition print_first_last (files : list string) : result (list string) :=
  head <- print_names (first_n 10 files) ;;
  tail <- print_names (last_n 10 files) ;;
  Ok (head ++ tail)%list.

End Preview.

(** Two names of NUCAPS files with observations starting at 19:07. *)
Definition nucaps_files : list string :=
  ["noaa-jpss/NOAA20/SOUNDINGS/NOAA20_NUCAPS-EDR/2022/11/29/NUCAPS-EDR_v3r0_j01_s202211291907190_e202211291907490_c202211291948390.nc";
   "noaa-jpss/NOAA20/SOUNDINGS/NOAA20_NUCAPS-EDR/2022/11/29/NUCAPS-EDR_v3r0_j01_s202211291907510_e202211291908210_c202211291948400.nc"].

(** The number of occurrences of a character in a string. *)
Fixpoint count_char (c : ascii) (s : string) : nat :=
  match s with
  | EmptyString => O
  | String x rest =>
      if Ascii.eqb x c then S (count_char c rest) else count_char c rest
  end.

(** The last path segment of [file], and its ['-']-delimited tokens. *)
Definition last_segment (file : string) : string :=
  last (split "/" file) EmptyString.

Definition dash_tokens (file : string) : list string :=
  split "-" (last_segment file).

(** * Properties *)

(** ** Strings *)

Section StringFacts.

Lemma string_length_app (a b : string) :
  String.length (a ++ b) = (String.length a + String.length b)%nat.
Proof. induction a as [|c a IH]; simpl; [reflexivity | now rewrite IH]. Qed.

Lemma app_assoc_string (a b c : string) : (a ++ b) ++ c = a ++ (b ++ c).
Proof. induction a as [|x a IH]; simpl; [reflexivity | now rewrite IH]. Qed.

Lemma length_repeat_char (c : ascii) (n : nat) :
  String.length (repeat_char c n) = n.
Proof. induction n as [|n IH]; simpl; [reflexivity | now rewrite IH]. Qed.

Lemma len_app (a b : string) : len (a ++ b) = len a + len b.
Proof. unfold len. rewrite string_length_app. lia. Qed.


Lemma all_digits_app (a b : string) :
  all_digits (a ++ b) = (all_digits a && all_digits b)%bool.
Proof.
  induction a as [|c a IH]; simpl; [reflexivity |].
  now rewrite IH, andb_assoc.
Qed.

Lemma value_from_app (a b : string) (acc : Z) :
  value_from acc (a ++ b) = value_from (value_from acc a) b.
Proof.
  revert acc. induction a as [|c a IH]; intros acc; simpl;
    [reflexivity | apply IH].
Qed.

Lemma all_digits_zeros (n : nat) : all_digits (repeat_char "0" n) = true.
Proof. induction n as [|n IH]; simpl; [reflexivity | exact IH]. Qed.

Lemma value_from_zeros (n : nat) : value_from 0 (repeat_char "0" n) = 0.
Proof. induction n as [|n IH]; simpl; [reflexivity | exact IH]. Qed.

End StringFacts.

(** ** [str] and [zfill] *)

Section Rendering.

Lemma digit_char_spec (d : Z) :
  0 <= d <= 9 ->
  is_digit (digit_char d) = true
  /\ digit_val (digit_char d) = d
  /\ is_sign (digit_char d) = false.
Proof.
  intros Hd.
  assert (Hcases : d = 0 \/ d = 1 \/ d = 2 \/ d = 3 \/ d = 4 \/ d = 5
                   \/ d = 6 \/ d = 7 \/ d = 8 \/ d = 9) by lia.
  repeat (destruct Hcases as [-> | Hcases]; [repeat split; reflexivity |]).
  subst d. repeat split; reflexivity.
Qed.

Lemma one_digit_spec (n : Z) (acc : string) :
  0 <= n < 10 ->
  exists c D,
    String (digit_char n) acc = String c D ++ acc
    /\ is_sign c = false
    /\ all_digits (String c D) = true
    /\ (forall a, value_from a (String c D) = a * 10 ^ len (String c D) + n)
    /\ (0 < n -> 10 ^ (len (String c D) - 1) <= n).
Proof.
  intros Hn. destruct (digit_char_spec n) as (Hd & Hv & Hs); [lia |].
  exists (digit_char n), EmptyString. repeat split.
  - exact Hs.
  - cbn [all_digits]. now rewrite Hd.
  - intros a. cbn [value_from]. rewrite Hv.
    change (len (String (digit_char n) "")) with 1.
    change (10 ^ 1) with 10. lia.
  - intros Hpos. change (len (String (digit_char n) "") - 1) with 0.
    change (10 ^ 0) with 1. lia.
Qed.

Lemma digits_fuel_step (fuel : nat) (n : Z) (acc : string) :
  digits_fuel (S fuel) n acc
  = if n <? 10 then String (digit_char (n mod 10)) acc
    else digits_fuel fuel (n / 10) (String (digit_char (n mod 10)) acc).
Proof. reflexivity. Qed.

(** What the digit loop produces, for any fuel that covers [n]. *)
Lemma digits_fuel_spec (fuel : nat) :
  forall (n : Z) (acc : string),
    0 <= n < 10 ^ Z.of_nat (S fuel) ->
    exists c D,
      digits_fuel (S fuel) n acc = String c D ++ acc
      /\ is_sign c = false
      /\ all_digits (String c D) = true
      /\ (forall a, value_from a (String c D) = a * 10 ^ len (String c D) + n)
      /\ (0 < n -> 10 ^ (len (String c D) - 1) <= n).
Proof.
  induction fuel as [|fuel IH]; intros n acc Hn.
  - assert (Hlt : n < 10) by (change (10 ^ Z.of_nat 1) with 10 in Hn; lia).
    rewrite digits_fuel_step. apply Z.ltb_lt in Hlt as Hb. rewrite Hb.
    rewrite Z.mod_small by lia. apply one_digit_spec. lia.
  - rewrite digits_fuel_step. destruct (n <? 10) eqn:Hb.
    + apply Z.ltb_lt in Hb. rewrite Z.mod_small by lia.
      apply one_digit_spec. lia.
    + apply Z.ltb_ge in Hb.
      assert (Hq : 0 <= n / 10 < 10 ^ Z.of_nat (S fuel)).
      { split; [apply Z.div_pos; lia |].
        apply Z.div_lt_upper_bound; [lia |].
        replace (Z.of_nat (S (S fuel))) with (Z.succ (Z.of_nat (S fuel))) in Hn
          by lia.
        rewrite Z.pow_succ_r in Hn by lia. lia. }
      destruct (IH (n / 10) (String (digit_char (n mod 10)) acc) Hq)
        as (c & D & Heq & Hs & Hall & Hval & Hlow).
      destruct (digit_char_spec (n mod 10)) as (Hd & Hv & _);
        [pose proof (Z.mod_pos_bound n 10); lia |].
      set (last := String (digit_char (n mod 10)) EmptyString) in *.
      exists c, (D ++ last).
      change (String c (D ++ last)) with (String c D ++ last).
      assert (Hlen : len (String c D ++ last) = len (String c D) + 1)
        by (rewrite len_app; reflexivity).
      assert (Hpos : 1 <= len (String c D))
        by (unfold len; cbn [String.length]; lia).
      pose proof (Z.div_mod n 10) as Hdm.
      pose proof (Z.mod_pos_bound n 10) as Hmb.
      repeat split.
      * rewrite Heq, app_assoc_string. reflexivity.
      * exact Hs.
      * rewrite all_digits_app, Hall. subst last. cbn [all_digits].
        now rewrite Hd.
      * intros a. rewrite Hlen, value_from_app, Hval.
        subst last. cbn [value_from]. rewrite Hv.
        rewrite Z.pow_add_r by lia. change (10 ^ 1) with 10. lia.
      * intros _. rewrite Hlen.
        replace (len (String c D) + 1 - 1)
          with (Z.succ (len (String c D) - 1)) by lia.
        rewrite Z.pow_succ_r by lia.
        assert (Hq1 : 0 < n / 10) by (apply Z.div_str_pos; lia).
        specialize (Hlow Hq1). lia.
Qed.

Lemma digits_fuel_enough (n : Z) :
  0 <= n -> 0 <= n < 10 ^ Z.of_nat (S (Z.to_nat (Z.log2 n))).
Proof.
  intros Hn. split; [exact Hn |].
  destruct (Z.eq_dec n 0) as [-> | Hnz]; [reflexivity |].
  pose proof (Z.log2_nonneg n) as Hl.
  destruct (Z.log2_spec n) as [_ Hup]; [lia |].
  replace (Z.of_nat (S (Z.to_nat (Z.log2 n)))) with (Z.succ (Z.log2 n))
    by lia.
  eapply Z.lt_le_trans; [exact Hup |].
  apply Z.pow_le_mono_l. lia.
Qed.

Lemma digits_spec (n : Z) :
  0 <= n ->
  exists c D,
    digits n = String c D
    /\ is_sign c = false
    /\ all_digits (String c D) = true
    /\ value (String c D) = n
    /\ (0 < n -> 10 ^ (len (String c D) - 1) <= n).
Proof.
  intros Hn. unfold digits.
  destruct (digits_fuel_spec _ n EmptyString (digits_fuel_enough n Hn))
    as (c & D & Heq & Hs & Hall & Hval & Hlow).
  exists c, D. repeat split; try assumption.
  - rewrite Heq. simpl. f_equal.
    clear. induction D as [|x D IH]; simpl; [reflexivity | now rewrite IH].
  - unfold value. rewrite Hval. lia.
Qed.

Lemma digits_len_bound (n k : Z) :
  0 <= n < 10 ^ k -> 1 <= k -> 1 <= len (digits n) <= k.
Proof.
  intros Hn Hk.
  destruct (digits_spec n (proj1 Hn)) as (c & D & Heq & _ & _ & _ & Hlow).
  rewrite Heq.
  assert (Hpos : 1 <= len (String c D))
    by (unfold len; cbn [String.length]; lia).
  split; [exact Hpos |].
  destruct (Z.eq_dec n 0) as [-> | Hnz].
  - change (digits 0) with "0" in Heq. rewrite <- Heq.
    change (len "0") with 1. exact Hk.
  - specialize (Hlow ltac:(lia)).
    destruct (Z_le_gt_dec (len (String c D)) k) as [Hle | Hgt];
      [exact Hle | exfalso].
    assert (Hmono : 10 ^ k <= 10 ^ (len (String c D) - 1))
      by (apply Z.pow_le_mono_r; lia).
    lia.
Qed.

Lemma str_nonneg (v : Z) : 0 <= v -> str v = digits v.
Proof.
  intros Hv. unfold str.
  now replace (v <? 0) with false by (symmetry; apply Z.ltb_ge; exact Hv).
Qed.

Lemma zfill_length (s : string) (w : Z) : len (zfill s w) = Z.max w (len s).
Proof.
  unfold zfill. destruct (w <=? len s) eqn:Hw.
  - apply Z.leb_le in Hw. lia.
  - apply Z.leb_gt in Hw. destruct s as [|c rest].
    + unfold len in *. rewrite length_repeat_char.
      cbn [String.length] in *. lia.
    + destruct (is_sign c).
      * unfold len in *. cbn [String.length] in *.
        rewrite string_length_app, length_repeat_char. lia.
      * rewrite len_app. unfold len at 1. rewrite length_repeat_char. lia.
Qed.


Lemma zfill_unsigned (c : ascii) (D : string) (w : Z) :
  is_sign c = false ->
  zfill (String c D) w
  = repeat_char "0" (Z.to_nat (w - len (String c D))) ++ String c D.
Proof.
  intros Hs. unfold zfill. destruct (w <=? len (String c D)) eqn:Hw.
  - apply Z.leb_le in Hw.
    replace (Z.to_nat (w - len (String c D))) with 0%nat by lia.
    reflexivity.
  - now rewrite Hs.
Qed.


End Rendering.

(** ** Key Builder *)

Section KeyBuilderFacts.

Import KeyBuilder.

(** C7: the key of the GOES-16 ABI-L2-MCMIPM files of year 2022, day 336,
    hour 20 is exactly ["noaa-goes16/ABI-L2-MCMIPM/2022/336/20"]. *)
Theorem data_path_goes16 :
  data_path "noaa-goes16" "ABI-L2-MCMIPM" 2022 336 20
  = "noaa-goes16/ABI-L2-MCMIPM/2022/336/20".
Proof. reflexivity. Qed.






End KeyBuilderFacts.

(** ** Comparison of strings *)

Section Comparison.

Lemma ascii_compare_refl (c : ascii) : Ascii.compare c c = Eq.
Proof. unfold Ascii.compare. apply N.compare_refl. Qed.

Lemma ascii_compare_lt_trans (x y z : ascii) :
  Ascii.compare x y = Lt -> Ascii.compare y z = Lt -> Ascii.compare x z = Lt.
Proof.
  unfold Ascii.compare. rewrite !N.compare_lt_iff. apply N.lt_trans.
Qed.

Lemma ascii_compare_digit_val (x y : ascii) :
  Ascii.compare x y = (digit_val x ?= digit_val y).
Proof.
  unfold Ascii.compare, digit_val.
  rewrite <- !Z.add_opp_r, !(Z.add_comm _ (- 48)), Z.add_compare_mono_l.
  symmetry. apply N2Z.inj_compare.
Qed.

Lemma str_ge_le (x y : string) : str_ge x y = str_le y x.
Proof.
  unfold str_ge, str_le. rewrite (String.compare_antisym x y).
  destruct (String.compare y x); reflexivity.
Qed.

Lemma str_le_trans (a : string) :
  forall b c, str_le a b = true -> str_le b c = true -> str_le a c = true.
Proof.
  unfold str_le.
  induction a as [|x a IH]; intros [|y b] [|z c]; cbn [String.compare];
    try (intros; reflexivity); try discriminate.
  destruct (Ascii.compare x y) eqn:Exy; try discriminate;
    destruct (Ascii.compare y z) eqn:Eyz; try discriminate.
  - apply Ascii.compare_eq_iff in Exy, Eyz. subst.
    rewrite ascii_compare_refl. apply IH.
  - apply Ascii.compare_eq_iff in Exy. subst. now rewrite Eyz.
  - apply Ascii.compare_eq_iff in Eyz. subst. now rewrite Exy.
  - now rewrite (ascii_compare_lt_trans x y z Exy Eyz).
Qed.

Lemma is_digit_bounds (c : ascii) :
  is_digit c = true -> 0 <= digit_val c <= 9.
Proof.
  unfold is_digit, digit_val. intros H.
  apply andb_prop in H as [H1 H2].
  apply Z.leb_le in H1, H2. lia.
Qed.

(** On digit strings of one length, the order of the numbers read from
    two starting values is the order of the starting values, and the
    lexicographic order of the strings when these are equal. *)
Lemma value_from_compare (a : string) :
  forall (b : string) (acc1 acc2 : Z),
    String.length a = String.length b ->
    all_digits a = true -> all_digits b = true ->
    (value_from acc1 a ?= value_from acc2 b)
    = match acc1 ?= acc2 with
      | Eq => String.compare a b
      | o => o
      end.
Proof.
  induction a as [|x a IH]; intros [|y b] acc1 acc2 Hlen Ha Hb;
    try discriminate.
  - cbn. now destruct (acc1 ?= acc2).
  - cbn [all_digits] in Ha, Hb.
    apply andb_prop in Ha as [Hx Ha]. apply andb_prop in Hb as [Hy Hb].
    apply is_digit_bounds in Hx, Hy.
    cbn [value_from String.compare].
    rewrite IH by (try assumption; now injection Hlen).
    rewrite ascii_compare_digit_val.
    destruct (Z.compare_spec acc1 acc2) as [-> | Hlt | Hgt].
    + rewrite Z.add_compare_mono_l.
      now destruct (digit_val x ?= digit_val y).
    + now replace (10 * acc1 + digit_val x ?= 10 * acc2 + digit_val y)
        with Lt by (symmetry; apply Z.compare_lt_iff; lia).
    + now replace (10 * acc1 + digit_val x ?= 10 * acc2 + digit_val y)
        with Gt by (symmetry; apply Z.compare_gt_iff; lia).
Qed.

Lemma compare_digits (a b : string) :
  String.length a = String.length b ->
  all_digits a = true -> all_digits b = true ->
  String.compare a b = (value a ?= value b).
Proof.
  intros Hlen Ha Hb. unfold value.
  now rewrite (value_from_compare a b 0 0 Hlen Ha Hb).
Qed.

End Comparison.

(** ** Filename Field Extractor *)

Section ExtractorFacts.

Import Extractor.

Lemma split_nonempty (sep : ascii) (s : string) : split sep s <> [].
Proof.
  destruct s as [|c rest]; cbn [split]; [discriminate |].
  destruct (Ascii.eqb c sep); [discriminate |].
  destruct (split sep rest); discriminate.
Qed.

Lemma getitem_last {A : Type} (l : list A) (d : A) :
  l <> [] -> getitem l (-1) = Ok (last l d).
Proof.
  intros Hl.
  destruct (exists_last Hl) as (front & x & ->).
  unfold getitem. rewrite last_last, List.length_app. cbn [List.length].
  change (-1 <? 0) with true. cbv iota.
  replace (-1 + Z.of_nat (List.length front + 1) <? 0) with false
    by (symmetry; apply Z.ltb_ge; lia).
  replace (Z.of_nat (List.length front + 1)
           <=? -1 + Z.of_nat (List.length front + 1))
    with false by (symmetry; apply Z.leb_gt; lia).
  cbn [orb].
  replace (Z.to_nat (-1 + Z.of_nat (List.length front + 1)))
    with (List.length front) by lia.
  rewrite nth_error_app2, Nat.sub_diag by lia. reflexivity.
Qed.

Lemma getitem_nonneg {A : Type} (l : list A) (i : nat) :
  getitem l (Z.of_nat i)
  = match nth_error l i with
    | Some x => Ok x
    | None => Raise IndexError
    end.
Proof.
  unfold getitem. cbv zeta.
  assert (Hi : (Z.of_nat i <? 0) = false) by (apply Z.ltb_ge; lia).
  rewrite !Hi, Nat2Z.id. cbn [orb].
  destruct (Z.of_nat (List.length l) <=? Z.of_nat i) eqn:Hle;
    [| reflexivity].
  apply Z.leb_le in Hle.
  now replace (nth_error l i) with (@None A)
    by (symmetry; apply nth_error_None; lia).
Qed.

Lemma basename_spec (file : string) :
  basename file = Ok (last (split "/" file) EmptyString).
Proof. unfold basename. apply getitem_last, split_nonempty. Qed.

Lemma time_token_spec (file : string) :
  time_token file
  = match nth_error (tokens file) 3 with
    | Some tok => Ok tok
    | None => Raise IndexError
    end.
Proof.
  unfold time_token. rewrite basename_spec. cbn [bind].
  apply (getitem_nonneg _ 3%nat).
Qed.

Lemma substring_length (s : string) :
  forall n m : nat,
    String.length (String.substring n m s)
    = Nat.min m (String.length s - n).
Proof.
  induction s as [|c s IH]; intros [|n] [|m]; cbn [String.substring String.length];
    try reflexivity.
  - rewrite IH. cbn. now rewrite Nat.sub_0_r.
  - rewrite IH. reflexivity.
  - rewrite IH. reflexivity.
Qed.

(** C1 (as the code has it): a name with fewer than four ['_']-delimited
    tokens makes the extraction fail, with [IndexError]; any other name
    has a fourth token, and the extraction returns characters 8 to 12 of
    it, as many of them as the token has, so fewer than four (possibly
    none) when the token is shorter than 12 characters; it returns
    ["2030"] when that token starts with ["s20223362030"]. *)
Theorem abi_start_time_spec (file : string) :
  ((List.length (tokens file) < 4)%nat ->
   abi_start_time file = Raise IndexError)
  /\ ((4 <= List.length (tokens file))%nat ->
      exists tok, nth_error (tokens file) 3 = Some tok)
  /\ (forall tok : string,
        nth_error (tokens file) 3 = Some tok ->
        exists t : string,
          abi_start_time file = Ok t
          /\ t = String.substring 8 4 tok
          /\ String.length t = Nat.min 4 (String.length tok - 8)
          /\ (forall rest, tok = "s20223362030" ++ rest -> t = "2030")).
Proof.
  unfold abi_start_time. rewrite time_token_spec. split; [| split].
  - intros Hlen.
    now replace (nth_error (tokens file) 3) with (@None string)
      by (symmetry; apply nth_error_None; lia).
  - intros Hlen. destruct (nth_error (tokens file) 3) as [tok|] eqn:Hnth.
    + now exists tok.
    + apply nth_error_None in Hnth. lia.
  - intros tok ->. cbn [bind]. exists (slice tok 8 12).
    unfold slice. change (12 - 8)%nat with 4%nat.
    repeat split.
    + apply substring_length.
    + intros rest ->. destruct rest; reflexivity.
Qed.

Lemma abi_start_time_spec_witness :
  abi_start_time "OR_ABI" = Raise IndexError
  /\ (exists tok, nth_error (tokens mcmipm_file) 3 = Some tok)
  /\ exists t : string,
       abi_start_time mcmipm_file = Ok t
       /\ t = String.substring 8 4 "s20223362030550"
       /\ String.length t = Nat.min 4 (String.length "s20223362030550" - 8)
       /\ (forall rest, "s20223362030550" = "s20223362030" ++ rest ->
           t = "2030").
Proof.
  split; [| split].
  - apply (proj1 (abi_start_time_spec "OR_ABI")). cbn. lia.
  - apply (proj1 (proj2 (abi_start_time_spec mcmipm_file))). cbn. lia.
  - apply (proj2 (proj2 (abi_start_time_spec mcmipm_file))
             "s20223362030550").
    reflexivity.
Defined.

(** C1, refuted as stated: the fourth token of this name has 11
    characters, fewer than the 12 the slice reaches to, and the
    extraction returns the three characters it finds. *)
Lemma abi_start_time_short_token :
  abi_start_time "OR_ABI-L2-MCMIPM2-M6_G16_s2022336203" = Ok "203".
Proof. reflexivity. Qed.

End ExtractorFacts.

(** ** Match Selector *)

Section SelectorFacts.

Import Extractor Selector.

Lemma comprehension_filter {A : Type} (cond : A -> result bool)
  (p : A -> bool) (xs : list A) :
  (forall x, In x xs -> cond x = Ok (p x)) ->
  comprehension cond xs = Ok (filter p xs).
Proof.
  induction xs as [|x xs IH]; intros Hpure; [reflexivity |].
  cbn [comprehension filter].
  rewrite (Hpure x (or_introl eq_refl)). cbn [bind].
  rewrite IH by (intros y Hy; apply Hpure; now right).
  cbn [bind]. reflexivity.
Qed.

Lemma filter_none {A : Type} (p : A -> bool) (xs : list A) :
  (forall x, In x xs -> p x = false) -> filter p xs = [].
Proof.
  induction xs as [|x xs IH]; intros Hnone; [reflexivity |].
  cbn [filter]. rewrite (Hnone x (or_introl eq_refl)).
  apply IH. intros y Hy. apply Hnone. now right.
Qed.



Lemma viirs_cond_spec (start_time end_time file : string) :
  viirs_cond start_time end_time file
  = match nth_error (tokens file) 3 with
    | Some tok => Ok (in_range start_time end_time (slice tok 9 13))
    | None => Raise IndexError
    end.
Proof.
  unfold viirs_cond, and_then, viirs_start_time, in_range.
  rewrite time_token_spec.
  destruct (nth_error (tokens file) 3) as [tok|]; cbn [bind];
    [| reflexivity].
  destruct (str_ge (slice tok 9 13) start_time); reflexivity.
Qed.

Lemma in_range_inverted (start_time end_time t : string) :
  String.compare start_time end_time = Gt ->
  in_range start_time end_time t = false.
Proof.
  intros Hgt. unfold in_range.
  destruct (str_ge t start_time) eqn:Hge; [| reflexivity].
  destruct (str_le t end_time) eqn:Hle; [| reflexivity].
  rewrite str_ge_le in Hge.
  pose proof (str_le_trans _ _ _ Hge Hle) as Hse.
  unfold str_le in Hse. now rewrite Hgt in Hse.
Qed.

(** C3: on digit strings of one length, the range test of the selector
    (lexicographic, both ends included) is the range test on the numbers
    the strings denote. *)
Theorem in_range_numeric (lo hi t : string) :
  String.length lo = String.length t ->
  String.length hi = String.length t ->
  all_digits lo = true -> all_digits hi = true -> all_digits t = true ->
  in_range lo hi t = true <-> value lo <= value t <= value hi.
Proof.
  intros Hlo Hhi Dlo Dhi Dt. unfold in_range, str_ge, str_le.
  rewrite (compare_digits t lo), (compare_digits t hi)
    by (try assumption; symmetry; assumption).
  destruct (Z.compare_spec (value t) (value lo));
    destruct (Z.compare_spec (value t) (value hi));
    cbn [andb]; split; (lia || discriminate || reflexivity).
Qed.

Lemma in_range_numeric_witness :
  in_range "2116" "2119" "2118" = true
  <-> value "2116" <= value "2118" <= value "2119".
Proof. apply (in_range_numeric "2116" "2119" "2118"); reflexivity. Defined.

(** C10 (as the code has it): when the start bound is lexicographically
    greater than the end bound, the range selection over a listing whose
    names all have at least four ['_']-delimited tokens is empty. *)
Theorem viirs_matches_inverted_bounds (start_time end_time : string)
  (files : list string) :
  String.compare start_time end_time = Gt ->
  (forall f, In f files -> (4 <= List.length (tokens f))%nat) ->
  viirs_matches start_time end_time files = Ok [].
Proof.
  intros Hgt Htok. unfold viirs_matches.
  rewrite (comprehension_filter _ (fun _ => false)).
  - f_equal. now apply filter_none.
  - intros f Hf. rewrite viirs_cond_spec.
    destruct (nth_error (tokens f) 3) as [tok|] eqn:Hnth.
    + now rewrite in_range_inverted.
    + apply nth_error_None in Hnth. specialize (Htok f Hf). lia.
Qed.

Lemma viirs_matches_inverted_bounds_witness :
  viirs_matches "2359" "0001" af_files = Ok [].
Proof.
  apply (viirs_matches_inverted_bounds "2359" "0001" af_files).
  - reflexivity.
  - intros f [<- | [<- | [<- | [<- | []]]]]; cbn; lia.
Defined.

(** The selections of cells 17 and 36 on sample names. *)
Example abi_matches_mcmipm :
  abi_matches "2030" "MCMIPM2"
    ["noaa-goes16/ABI-L2-MCMIPM/2022/336/20/OR_ABI-L2-MCMIPM1-M6_G16_s20223362030251_e20223362030308_c20223362030388.nc";
     mcmipm_file;
     "noaa-goes16/ABI-L2-MCMIPM/2022/336/20/OR_ABI-L2-MCMIPM2-M6_G16_s20223362031550_e20223362031550_c20223362032040.nc"]
  = Ok [mcmipm_file].
Proof. reflexivity. Qed.

Example viirs_matches_af :
  viirs_matches "2116" "2119" af_files
  = Ok [nth 1 af_files EmptyString; nth 2 af_files EmptyString].
Proof. reflexivity. Qed.

Example abi_matches_no_hit : abi_matches "2359" "MCMIPM2" [mcmipm_file] = Ok [].
Proof. reflexivity. Qed.

(** C10, refuted as stated: on a listing that holds a name with fewer
    than four tokens the selection raises, it does not return the empty
    list. *)
Lemma viirs_matches_short_name :
  String.compare "2359" "0001" = Gt
  /\ viirs_matches "2359" "0001"
       ["noaa-jpss/NOAA20/VIIRS/NOAA20_VIIRS_AF_I-Band_EDR_NRT/2022/10/16/index.html"]
     = Raise IndexError.
Proof. split; reflexivity. Qed.

End SelectorFacts.

(** ** Calendar Resolver *)

Section CalendarFacts.

Import Datetime.

Lemma is_leap_gregorian (year : Z) : is_leap year = gregorian_leap year.
Proof.
  unfold is_leap, gregorian_leap, divisible.
  destruct (year mod 4 =? 0), (year mod 100 =? 0), (year mod 400 =? 0);
    reflexivity.
Qed.

Lemma divisible_divide (n d : Z) : d <> 0 -> divisible n d = true <-> (d | n).
Proof.
  intros Hd. unfold divisible. rewrite Z.eqb_eq. now apply Z.mod_divide.
Qed.

Lemma month_cases (month : Z) :
  1 <= month <= 12 ->
  month = 1 \/ month = 2 \/ month = 3 \/ month = 4 \/ month = 5
  \/ month = 6 \/ month = 7 \/ month = 8 \/ month = 9 \/ month = 10
  \/ month = 11 \/ month = 12.
Proof. lia. Qed.

Ltac each_month H :=
  apply month_cases in H;
  repeat (destruct H as [-> | H]); [.. | subst].

Lemma days_in_month_spec (year month : Z) :
  1 <= month <= 12 ->
  days_in_month year month = month_length (gregorian_leap year) month.
Proof.
  intros Hm. unfold days_in_month. rewrite is_leap_gregorian.
  each_month Hm; cbn; reflexivity.
Qed.

Lemma days_elapsed_split (leap : bool) (month day : Z) :
  days_elapsed leap month day = days_elapsed leap month 0 + day.
Proof.
  unfold days_elapsed.
  induction (map (fun k => month_length leap (Z.of_nat k))
               (seq 1 (Z.to_nat month - 1))) as [|x l IH];
    cbn [fold_right]; lia.
Qed.

(** The table of the code gives the days elapsed of the specification. *)
Lemma yday_spec (year month day : Z) :
  1 <= month <= 12 ->
  yday (mk_datetime year month day)
  = days_elapsed (gregorian_leap year) month day.
Proof.
  intros Hm. unfold yday, days_before_month.
  rewrite is_leap_gregorian, days_elapsed_split.
  cbn [dt_year dt_month dt_day]. f_equal.
  each_month Hm; destruct (gregorian_leap year); reflexivity.
Qed.

Lemma days_elapsed_bounds (leap : bool) (month day : Z) :
  in_month leap month day -> 1 <= days_elapsed leap month day <= 366.
Proof.
  intros [Hm Hd]. rewrite days_elapsed_split.
  each_month Hm; destruct leap; cbn [month_length] in Hd;
    match goal with
    | |- context [days_elapsed ?l ?m 0] =>
        let v := eval vm_compute in (days_elapsed l m 0) in
        change (days_elapsed l m 0) with v
    end; lia.
Qed.

Lemma new_datetime_valid (year month day : Z) :
  valid_date year month day ->
  new_datetime year month day = Ok (mk_datetime year month day).
Proof.
  intros [Hy [Hm Hd]]. unfold new_datetime, MINYEAR, MAXYEAR in *.
  rewrite days_in_month_spec by exact Hm.
  replace (1 <=? year) with true by (symmetry; apply Z.leb_le; lia).
  replace (year <=? 9999) with true by (symmetry; apply Z.leb_le; lia).
  replace (1 <=? month) with true by (symmetry; apply Z.leb_le; lia).
  replace (month <=? 12) with true by (symmetry; apply Z.leb_le; lia).
  replace (1 <=? day) with true by (symmetry; apply Z.leb_le; lia).
  replace (day <=? month_length (gregorian_leap year) month) with true
    by (symmetry; apply Z.leb_le; lia).
  reflexivity.
Qed.



(** A day of the year, below 1000, printed on three characters. *)
Lemma three_digits (n : Z) :
  0 <= n < 1000 ->
  String.length (zfill (str n) 3) = 3%nat
  /\ all_digits (zfill (str n) 3) = true
  /\ value (zfill (str n) 3) = n.
Proof.
  intros Hn.
  assert (Hlen : len (zfill (str n) 3) = 3).
  { rewrite zfill_length, str_nonneg by lia.
    pose proof (digits_len_bound n 3 ltac:(change (10 ^ 3) with 1000; lia)
                  ltac:(lia)).
    lia. }
  split; [unfold len in Hlen; lia |].
  rewrite str_nonneg by lia.
  destruct (digits_spec n (proj1 Hn)) as (c & D & Heq & Hs & Hall & Hval & _).
  rewrite Heq, zfill_unsigned by exact Hs. split.
  - now rewrite all_digits_app, all_digits_zeros, Hall.
  - unfold value in *. now rewrite value_from_app, value_from_zeros.
Qed.




(** The date of cell 13. *)
Example julian_day_2022_12_02 : julian_day 2022 12 2 = Ok "336".
Proof. reflexivity. Qed.


End CalendarFacts.

(** ** Probe of one object *)

Section ProbeFacts.

Import Probe.




End ProbeFacts.

(** * Further properties of the cells *)

(** ** Splitting and the last path segment *)

Section SplitFacts.

Import Extractor.

Lemma count_char_app (c : ascii) (a b : string) :
  count_char c (a ++ b) = (count_char c a + count_char c b)%nat.
Proof.
  induction a as [|x a IH]; cbn [append count_char]; [reflexivity |].
  destruct (Ascii.eqb x c); rewrite IH; reflexivity.
Qed.

Lemma split_length (sep : ascii) (s : string) :
  List.length (split sep s) = S (count_char sep s).
Proof.
  induction s as [|x s IH]; cbn [split count_char]; [reflexivity |].
  destruct (Ascii.eqb x sep); cbn [List.length]; [now rewrite IH |].
  destruct (split sep s) as [|tok toks]; [discriminate IH | exact IH].
Qed.

Lemma split_no_sep (sep : ascii) (s : string) :
  count_char sep s = 0%nat -> split sep s = [s].
Proof.
  induction s as [|x s IH]; cbn [split count_char]; [reflexivity |].
  destruct (Ascii.eqb x sep); [discriminate |].
  intros H. now rewrite (IH H).
Qed.

(** Splitting distributes over a separator in the middle. *)
Lemma split_app (sep : ascii) (a b : string) :
  split sep (a ++ String sep b) = (split sep a ++ split sep b)%list.
Proof.
  induction a as [|x a IH]; cbn [append split].
  - now rewrite Ascii.eqb_refl.
  - destruct (Ascii.eqb x sep); rewrite IH; [reflexivity |].
    pose proof (split_nonempty sep a) as Hne.
    destruct (split sep a) as [|tok toks]; [contradiction | reflexivity].
Qed.

Lemma split_tokens_clean (sep : ascii) (s : string) :
  Forall (fun tok => count_char sep tok = 0%nat) (split sep s).
Proof.
  induction s as [|x s IH]; cbn [split].
  - repeat constructor.
  - destruct (Ascii.eqb x sep) eqn:Hx; [constructor; [reflexivity | exact IH] |].
    destruct (split sep s) as [|tok toks]; [repeat constructor |].
    + cbn [count_char]. now rewrite Hx.
    + inversion IH as [|? ? Htok Htoks]; subst. constructor; [| exact Htoks].
      cbn [count_char]. now rewrite Hx.
Qed.

Lemma last_app_nonempty {A : Type} (l1 l2 : list A) (d : A) :
  l2 <> [] -> last (l1 ++ l2) d = last l2 d.
Proof.
  intros Hne. destruct (exists_last Hne) as (front & x & ->).
  now rewrite app_assoc, !last_last.
Qed.

Lemma last_segment_app (dir rest : string) :
  last_segment (dir ++ String "/" rest) = last_segment rest.
Proof.
  unfold last_segment. rewrite split_app.
  apply last_app_nonempty, split_nonempty.
Qed.

Lemma last_segment_clean (file : string) :
  count_char "/" (last_segment file) = 0%nat.
Proof.
  unfold last_segment.
  pose proof (split_tokens_clean "/" file) as Hall.
  pose proof (split_nonempty "/" file) as Hne.
  destruct (exists_last Hne) as (front & x & Heq). rewrite Heq in *.
  rewrite last_last. apply Forall_app in Hall as [_ Hx].
  now inversion Hx.
Qed.

(** A string is its last segment, alone or after a ['/']. *)
Lemma last_segment_suffix (file : string) :
  file = last_segment file
  \/ exists dir, file = dir ++ String "/" (last_segment file).
Proof.
  unfold last_segment.
  induction file as [|x s IH]; [now left |].
  cbn [split]. destruct (Ascii.eqb x "/") eqn:Hx.
  - apply Ascii.eqb_eq in Hx. subst x. right.
    pose proof (split_nonempty "/" s) as Hne.
    replace (last (EmptyString :: split "/" s) EmptyString)
      with (last (split "/" s) EmptyString)
      by (destruct (split "/" s); [contradiction | reflexivity]).
    destruct IH as [IH | [dir IH]].
    + exists EmptyString. cbn [append]. now rewrite <- IH.
    + exists (String "/" dir). cbn [append]. now rewrite <- IH.
  - pose proof (split_length "/" s) as Hlen.
    destruct (split "/" s) as [|tok toks] eqn:Hs; [discriminate Hlen |].
    destruct toks as [|tok' toks].
    + left. cbn [last] in *. destruct IH as [IH | [dir IH]].
      * now rewrite <- IH.
      * exfalso. rewrite IH, count_char_app in Hlen.
        cbn [count_char List.length] in Hlen.
        rewrite Ascii.eqb_refl in Hlen. lia.
    + right. change (last (String x tok :: tok' :: toks) EmptyString)
        with (last (tok :: tok' :: toks) EmptyString).
      destruct IH as [IH | [dir IH]].
      * exfalso.
        pose proof (split_tokens_clean "/" s) as Hall. rewrite Hs in Hall.
        rewrite IH in Hs at 1.
        assert (Hclean : count_char "/" (last (tok :: tok' :: toks) "") = 0%nat).
        { destruct (@exists_last _ (tok :: tok' :: toks) ltac:(discriminate))
            as (front & y & Heq).
          rewrite Heq in *. rewrite last_last.
          apply Forall_app in Hall as [_ Hy]. now inversion Hy. }
        rewrite (split_no_sep _ _ Hclean) in Hs. discriminate Hs.
      * exists (String x dir). cbn [append]. now rewrite <- IH.
Qed.

(** X1: [file.split('/')[-1]] never raises.  It returns the part of
    [file] after its last ['/'] (all of [file] when it has none): the
    result has no ['/'], and [file] is the result, alone or after a
    directory part and a ['/']. *)
Theorem basename_suffix (file : string) :
  exists name : string,
    basename file = Ok name
    /\ count_char "/" name = 0%nat
    /\ (file = name \/ exists dir, file = dir ++ String "/" name).
Proof.
  exists (last_segment file). split; [apply basename_spec |].
  split; [apply last_segment_clean | apply last_segment_suffix].
Qed.

(** X2: the name of a file listed under a prefix is recovered from its
    key: for a name without ['/'], the last segment of
    [prefix + '/' + name] is [name], whatever the prefix. *)
Theorem basename_of_key (prefix name : string) :
  count_char "/" name = 0%nat ->
  basename (prefix ++ "/" ++ name) = Ok name.
Proof.
  intros Hclean. rewrite basename_spec.
  change (prefix ++ "/" ++ name) with (prefix ++ String "/" name).
  fold (last_segment (prefix ++ String "/" name)).
  rewrite last_segment_app. unfold last_segment.
  now rewrite (split_no_sep _ _ Hclean).
Qed.

Lemma basename_of_key_witness :
  basename ("noaa-goes16/ABI-L2-MCMIPM/2022/336/20" ++ "/" ++ "OR_ABI.nc")
  = Ok "OR_ABI.nc".
Proof.
  apply (basename_of_key "noaa-goes16/ABI-L2-MCMIPM/2022/336/20" "OR_ABI.nc").
  reflexivity.
Defined.

End SplitFacts.

(** ** Extraction and selection on any listing *)

Section SelectionFacts.

Import Extractor Selector.

Lemma abi_product_name_spec (file : string) :
  abi_product_name file
  = match nth_error (dash_tokens file) 2 with
    | Some p => Ok p
    | None => Raise IndexError
    end.
Proof.
  unfold abi_product_name. rewrite basename_spec. cbn [bind].
  apply (getitem_nonneg _ 2%nat).
Qed.

Lemma abi_cond_spec (observation_time product_name file : string) :
  abi_cond observation_time product_name file
  = match nth_error (tokens file) 3 with
    | None => Raise IndexError
    | Some tok =>
        if String.eqb (slice tok 8 12) observation_time
        then match nth_error (dash_tokens file) 2 with
             | Some p => Ok (String.eqb p product_name)
             | None => Raise IndexError
             end
        else Ok false
    end.
Proof.
  unfold abi_cond, and_then, abi_start_time.
  rewrite time_token_spec, abi_product_name_spec.
  destruct (nth_error (tokens file) 3) as [tok|]; cbn [bind];
    [| reflexivity].
  destruct (String.eqb (slice tok 8 12) observation_time); [| reflexivity].
  destruct (nth_error (dash_tokens file) 2); reflexivity.
Qed.

Lemma nucaps_cond_spec (observation_time file : string) :
  nucaps_cond observation_time file
  = match nth_error (tokens file) 3 with
    | Some tok => Ok (String.eqb (slice tok 9 16) observation_time)
    | None => Raise IndexError
    end.
Proof.
  unfold nucaps_cond, nucaps_start_time. rewrite time_token_spec.
  destruct (nth_error (tokens file) 3); reflexivity.
Qed.

Lemma nth_error_nth_default {A : Type} (l : list A) (n : nat) (d : A) :
  (n < List.length l)%nat -> nth_error l n = Some (nth n l d).
Proof. intros Hn. now apply nth_error_nth'. Qed.

(** A comprehension raises as soon as one element makes the condition
    raise, when the condition has one exception only. *)
Lemma comprehension_raises {A : Type} (cond : A -> result bool) (e0 : exn)
  (xs : list A) :
  (forall x e, cond x = Raise e -> e = e0) ->
  (exists x, In x xs /\ cond x = Raise e0) ->
  comprehension cond xs = Raise e0.
Proof.
  intros Honly. induction xs as [|x xs IH]; intros (y & Hin & Hy);
    [contradiction |].
  cbn [comprehension]. destruct (cond x) as [b | e] eqn:Hx; cbn [bind].
  - destruct Hin as [-> | Hin]; [congruence |].
    rewrite IH by (exists y; split; assumption). reflexivity.
  - now rewrite (Honly x e Hx).
Qed.

(** X3: the three start-time extractions raise [IndexError] exactly on
    the names whose last path segment has fewer than three ['_'].  On
    any other name none of them raises: they return the slices [8:12],
    [9:16] and [9:13] of the fourth token, which has no ['_'], so at
    most 4, 7 and 4 characters. *)
Theorem start_time_underscores (file : string) :
  ((count_char "_" (last_segment file) < 3)%nat ->
   abi_start_time file = Raise IndexError
   /\ nucaps_start_time file = Raise IndexError
   /\ viirs_start_time file = Raise IndexError)
  /\ ((3 <= count_char "_" (last_segment file))%nat ->
      exists tok a n v,
        count_char "_" tok = 0%nat
        /\ abi_start_time file = Ok a /\ a = slice tok 8 12
        /\ nucaps_start_time file = Ok n /\ n = slice tok 9 16
        /\ viirs_start_time file = Ok v /\ v = slice tok 9 13
        /\ (String.length a <= 4)%nat
        /\ (String.length n <= 7)%nat
        /\ (String.length v <= 4)%nat).
Proof.
  unfold abi_start_time, nucaps_start_time, viirs_start_time.
  rewrite time_token_spec.
  pose proof (split_length "_" (last_segment file)) as Hlen.
  change (split "_" (last_segment file)) with (tokens file) in Hlen.
  split; intros Hn.
  - replace (nth_error (tokens file) 3) with (@None string)
      by (symmetry; apply nth_error_None; lia).
    repeat split.
  - destruct (nth_error (tokens file) 3) as [tok|] eqn:Hnth;
      [| apply nth_error_None in Hnth; lia].
    exists tok, (slice tok 8 12), (slice tok 9 16), (slice tok 9 13).
    assert (Hclean : count_char "_" tok = 0%nat).
    { pose proof (split_tokens_clean "_" (last_segment file)) as Hall.
      change (split "_" (last_segment file)) with (tokens file) in Hall.
      rewrite Forall_forall in Hall. apply Hall.
      eapply nth_error_In. exact Hnth. }
    unfold slice. rewrite !substring_length. cbn [bind].
    repeat split; try assumption; lia.
Qed.

Lemma start_time_underscores_witness :
  (abi_start_time "a/b_c_d" = Raise IndexError
   /\ nucaps_start_time "a/b_c_d" = Raise IndexError
   /\ viirs_start_time "a/b_c_d" = Raise IndexError)
  /\ exists tok a n v,
       count_char "_" tok = 0%nat
       /\ abi_start_time mcmipm_file = Ok a /\ a = slice tok 8 12
       /\ nucaps_start_time mcmipm_file = Ok n /\ n = slice tok 9 16
       /\ viirs_start_time mcmipm_file = Ok v /\ v = slice tok 9 13
       /\ (String.length a <= 4)%nat
       /\ (String.length n <= 7)%nat
       /\ (String.length v <= 4)%nat.
Proof.
  split.
  - apply (proj1 (start_time_underscores "a/b_c_d")). cbn. lia.
  - apply (proj2 (start_time_underscores mcmipm_file)). cbn. lia.
Defined.

(** X4: the condition of the ABI selection raises, always [IndexError],
    exactly on a name with fewer than four ['_']-delimited tokens, and on
    a name whose start time is the one looked for and which has fewer
    than three ['-']-delimited tokens: the product name is only looked at
    when the start time matches. *)
Theorem abi_cond_raises (observation_time product_name file : string) :
  (forall e, abi_cond observation_time product_name file = Raise e ->
             e = IndexError)
  /\ (abi_cond observation_time product_name file = Raise IndexError
      <-> (List.length (tokens file) < 4)%nat
          \/ (abi_start_time file = Ok observation_time
              /\ (List.length (dash_tokens file) < 3)%nat)).
Proof.
  rewrite abi_cond_spec. unfold abi_start_time. rewrite time_token_spec.
  destruct (nth_error (tokens file) 3) as [tok|] eqn:Htok; cbn [bind].
  - assert (Hlen : (3 < List.length (tokens file))%nat)
      by (apply nth_error_Some; congruence).
    destruct (String.eqb (slice tok 8 12) observation_time) eqn:Ht.
    + apply String.eqb_eq in Ht.
      destruct (nth_error (dash_tokens file) 2) as [p|] eqn:Hp.
      * assert (Hd : (2 < List.length (dash_tokens file))%nat)
          by (apply nth_error_Some; congruence).
        split; [discriminate |]. split; [discriminate |].
        intros [H | [_ H]]; lia.
      * apply nth_error_None in Hp.
        split; [now intros e [= <-] |]. split; [| reflexivity].
        intros _. right. split; [now rewrite Ht | lia].
    + apply String.eqb_neq in Ht.
      split; [discriminate |]. split; [discriminate |].
      intros [H | [[= H] _]]; [lia | contradiction].
  - apply nth_error_None in Htok.
    split; [now intros e [= <-] |]. split; [| reflexivity].
    intros _. left. lia.
Qed.

(** X5: the condition of the ABI selection is true exactly on the names
    whose start time and product name are both the ones looked for. *)
Theorem abi_cond_true (observation_time product_name file : string) :
  abi_cond observation_time product_name file = Ok true
  <-> abi_start_time file = Ok observation_time
      /\ abi_product_name file = Ok product_name.
Proof.
  rewrite abi_cond_spec, abi_product_name_spec.
  unfold abi_start_time. rewrite time_token_spec.
  destruct (nth_error (tokens file) 3) as [tok|]; cbn [bind];
    [| split; [discriminate | intros [[=] _]]].
  destruct (String.eqb (slice tok 8 12) observation_time) eqn:Ht.
  - apply String.eqb_eq in Ht. rewrite Ht.
    destruct (nth_error (dash_tokens file) 2) as [p|];
      [| split; [discriminate | intros [_ [=]]]].
    split.
    + intros [= Hp]. apply String.eqb_eq in Hp. now subst.
    + intros [_ [= ->]]. now rewrite String.eqb_refl.
  - apply String.eqb_neq in Ht. split; [discriminate |].
    intros [[= H] _]. contradiction.
Qed.

End SelectionFacts.

(** ** The selections as wholes *)

Section WholeSelections.

Import Extractor Selector.

Lemma comprehension_ok_inv {A : Type} (cond : A -> result bool)
  (xs : list A) :
  forall r,
    comprehension cond xs = Ok r ->
    (forall x, In x xs -> exists b, cond x = Ok b)
    /\ r = filter (fun x => match cond x with
                            | Ok b => b
                            | Raise _ => false
                            end) xs.
Proof.
  induction xs as [|x xs IH]; intros r Hr.
  - injection Hr as <-. split; [intros x [] | reflexivity].
  - cbn [comprehension] in Hr.
    destruct (cond x) as [b | e] eqn:Hx; cbn [bind] in Hr; [| discriminate].
    destruct (comprehension cond xs) as [kept | e]; cbn [bind] in Hr;
      [| discriminate].
    injection Hr as <-. destruct (IH kept eq_refl) as [Hall ->]. split.
    + intros y [<- | Hy]; [now exists b | now apply Hall].
    + cbn [filter]. now rewrite Hx.
Qed.

Lemma abi_cond_index_error (observation_time product_name file : string)
  (e : exn) :
  abi_cond observation_time product_name file = Raise e -> e = IndexError.
Proof.
  rewrite abi_cond_spec.
  destruct (nth_error (tokens file) 3) as [tok|]; [| now intros [= <-]].
  destruct (String.eqb (slice tok 8 12) observation_time); [| discriminate].
  destruct (nth_error (dash_tokens file) 2); [discriminate | now intros [= <-]].
Qed.

Lemma string_compare_refl (s : string) : String.compare s s = Eq.
Proof.
  induction s as [|c s IH]; cbn [String.compare]; [reflexivity |].
  now rewrite ascii_compare_refl.
Qed.

Lemma in_range_widen (lo hi lo' hi' t : string) :
  str_le lo' lo = true -> str_le hi hi' = true ->
  in_range lo hi t = true -> in_range lo' hi' t = true.
Proof.
  unfold in_range. rewrite !str_ge_le. intros Hlo Hhi Hin.
  apply andb_prop in Hin as [H1 H2]. apply andb_true_intro. split.
  - exact (str_le_trans _ _ _ Hlo H1).
  - exact (str_le_trans _ _ _ H2 Hhi).
Qed.

(** X6: a comprehension returns a list exactly when its condition raises
    on no element of the listing, and the list is then made of the
    elements on which the condition is true, in the order of the
    listing. *)
Theorem comprehension_ok_iff {A : Type} (cond : A -> result bool)
  (xs r : list A) :
  comprehension cond xs = Ok r
  <-> (forall x, In x xs -> exists b, cond x = Ok b)
      /\ r = filter (fun x => match cond x with
                              | Ok b => b
                              | Raise _ => false
                              end) xs.
Proof.
  split; [apply comprehension_ok_inv |].
  intros [Hall ->]. apply comprehension_filter.
  intros x Hx. destruct (Hall x Hx) as [b Hb]. now rewrite Hb.
Qed.

(** X7: a comprehension raises [e] exactly when [e] is raised by the
    condition on some element and the condition raises on no element
    before it: the exception of the first failing element comes out,
    and the elements selected before it are lost. *)
Theorem comprehension_first_raise {A : Type} (cond : A -> result bool)
  (xs : list A) (e : exn) :
  comprehension cond xs = Raise e
  <-> exists before x after,
        xs = (before ++ x :: after)%list
        /\ (forall y, In y before -> exists b, cond y = Ok b)
        /\ cond x = Raise e.
Proof.
  split.
  - induction xs as [|x xs IH]; [discriminate |].
    cbn [comprehension].
    destruct (cond x) as [b | e'] eqn:Hx; cbn [bind].
    + destruct (comprehension cond xs) as [kept | e'']; cbn [bind];
        [discriminate |].
      intros [= ->].
      destruct (IH eq_refl) as (before & y & after & -> & Hbefore & Hy).
      exists (x :: before), y, after. repeat split; [| exact Hy].
      intros z [<- | Hz]; [now exists b | now apply Hbefore].
    + intros [= ->]. exists [], x, xs. repeat split; [| exact Hx].
      intros y [].
  - intros (before & x & after & -> & Hbefore & Hx).
    induction before as [|y before IH]; cbn [app comprehension].
    + now rewrite Hx.
    + destruct (Hbefore y (or_introl eq_refl)) as [b Hb]. rewrite Hb.
      cbn [bind]. rewrite IH by (intros z Hz; apply Hbefore; now right).
      reflexivity.
Qed.

(** X8: the VIIRS range selection (cell 36).  On a listing whose names
    all have four ['_']-delimited tokens it returns the names whose
    characters 9 to 13 of the fourth token are within the bounds, in
    listing order; a single name with fewer tokens makes the whole
    selection raise [IndexError]. *)
Theorem viirs_matches_spec (start_time end_time : string)
  (files : list string) :
  ((forall f, In f files -> (4 <= List.length (tokens f))%nat) ->
   viirs_matches start_time end_time files
   = Ok (filter
           (fun f =>
              in_range start_time end_time
                (slice (nth 3 (tokens f) EmptyString) 9 13))
           files))
  /\ ((exists f, In f files /\ (List.length (tokens f) < 4)%nat) ->
      viirs_matches start_time end_time files = Raise IndexError).
Proof.
  unfold viirs_matches. split.
  - intros Hall. apply comprehension_filter. intros f Hf.
    rewrite viirs_cond_spec.
    now rewrite (nth_error_nth_default _ 3 EmptyString (Hall f Hf)).
  - intros (f & Hf & Hshort). apply comprehension_raises.
    + intros x e. rewrite viirs_cond_spec.
      destruct (nth_error (tokens x) 3); [discriminate | now intros [= <-]].
    + exists f. split; [exact Hf |]. rewrite viirs_cond_spec.
      now replace (nth_error (tokens f) 3) with (@None string)
        by (symmetry; apply nth_error_None; lia).
Qed.

Lemma viirs_matches_spec_witness :
  viirs_matches "2116" "2119" af_files
  = Ok (filter
          (fun f => in_range "2116" "2119"
                      (slice (nth 3 (tokens f) EmptyString) 9 13))
          af_files)
  /\ viirs_matches "2116" "2119" (af_files ++ ["index.html"])
     = Raise IndexError.
Proof.
  split.
  - apply (proj1 (viirs_matches_spec "2116" "2119" af_files)).
    intros f [<- | [<- | [<- | [<- | []]]]]; cbn; lia.
  - apply (proj2 (viirs_matches_spec "2116" "2119"
                    (af_files ++ ["index.html"]))).
    exists "index.html". split; [cbn; tauto | cbn; lia].
Defined.

(** X9: the NUCAPS exact selection (cell 28).  On a listing whose names
    all have four ['_']-delimited tokens it returns the names whose
    characters 9 to 16 of the fourth token are the observation time, in
    listing order; a single name with fewer tokens makes the whole
    selection raise [IndexError]. *)
Theorem nucaps_matches_spec (observation_time : string)
  (files : list string) :
  ((forall f, In f files -> (4 <= List.length (tokens f))%nat) ->
   nucaps_matches observation_time files
   = Ok (filter
           (fun f =>
              String.eqb (slice (nth 3 (tokens f) EmptyString) 9 16)
                observation_time)
           files))
  /\ ((exists f, In f files /\ (List.length (tokens f) < 4)%nat) ->
      nucaps_matches observation_time files = Raise IndexError).
Proof.
  unfold nucaps_matches. split.
  - intros Hall. apply comprehension_filter. intros f Hf.
    rewrite nucaps_cond_spec.
    now rewrite (nth_error_nth_default _ 3 EmptyString (Hall f Hf)).
  - intros (f & Hf & Hshort). apply comprehension_raises.
    + intros x e. rewrite nucaps_cond_spec.
      destruct (nth_error (tokens x) 3); [discriminate | now intros [= <-]].
    + exists f. split; [exact Hf |]. rewrite nucaps_cond_spec.
      now replace (nth_error (tokens f) 3) with (@None string)
        by (symmetry; apply nth_error_None; lia).
Qed.

Lemma nucaps_matches_spec_witness :
  nucaps_matches "1907510" nucaps_files
  = Ok (filter
          (fun f => String.eqb (slice (nth 3 (tokens f) EmptyString) 9 16)
                      "1907510")
          nucaps_files)
  /\ nucaps_matches "1907510" ("manifest.txt" :: nucaps_files)
     = Raise IndexError.
Proof.
  split.
  - apply (proj1 (nucaps_matches_spec "1907510" nucaps_files)).
    intros f [<- | [<- | []]]; cbn; lia.
  - apply (proj2 (nucaps_matches_spec "1907510"
                    ("manifest.txt" :: nucaps_files))).
    exists "manifest.txt". split; [cbn; tauto | cbn; lia].
Defined.

(** X10: the ABI exact selection (cell 17).  On a listing whose names all
    have four ['_']-delimited and three ['-']-delimited tokens it returns
    the names whose start time and product name are the ones looked for,
    in listing order; a single name with fewer than four
    ['_']-delimited tokens makes the whole selection raise
    [IndexError]. *)
Theorem abi_matches_spec (observation_time product_name : string)
  (files : list string) :
  ((forall f, In f files ->
              (4 <= List.length (tokens f))%nat
              /\ (3 <= List.length (dash_tokens f))%nat) ->
   abi_matches observation_time product_name files
   = Ok (filter
           (fun f =>
              (String.eqb (slice (nth 3 (tokens f) EmptyString) 8 12)
                 observation_time
               && String.eqb (nth 2 (dash_tokens f) EmptyString)
                    product_name)%bool)
           files))
  /\ ((exists f, In f files /\ (List.length (tokens f) < 4)%nat) ->
      abi_matches observation_time product_name files = Raise IndexError).
Proof.
  unfold abi_matches. split.
  - intros Hall. apply comprehension_filter. intros f Hf.
    destruct (Hall f Hf) as [H4 H3]. rewrite abi_cond_spec.
    rewrite (nth_error_nth_default _ 3 EmptyString H4).
    rewrite (nth_error_nth_default _ 2 EmptyString H3).
    now destruct (String.eqb _ observation_time).
  - intros (f & Hf & Hshort). apply comprehension_raises.
    + intros x e. apply abi_cond_index_error.
    + exists f. split; [exact Hf |]. rewrite abi_cond_spec.
      now replace (nth_error (tokens f) 3) with (@None string)
        by (symmetry; apply nth_error_None; lia).
Qed.

Lemma abi_matches_spec_witness :
  abi_matches "2030" "MCMIPM2" [mcmipm_file]
  = Ok (filter
          (fun f =>
             (String.eqb (slice (nth 3 (tokens f) EmptyString) 8 12) "2030"
              && String.eqb (nth 2 (dash_tokens f) EmptyString)
                   "MCMIPM2")%bool)
          [mcmipm_file])
  /\ abi_matches "2030" "MCMIPM2" [mcmipm_file; "index.html"]
     = Raise IndexError.
Proof.
  split.
  - apply (proj1 (abi_matches_spec "2030" "MCMIPM2" [mcmipm_file])).
    intros f [<- | []]; cbn; lia.
  - apply (proj2 (abi_matches_spec "2030" "MCMIPM2"
                    [mcmipm_file; "index.html"])).
    exists "index.html". split; [cbn; tauto | cbn; lia].
Defined.

(** X11: an observation time longer than the slice it is compared with
    selects nothing: on a listing whose names all have four
    ['_']-delimited tokens, the ABI selection with more than 4
    characters and the NUCAPS selection with more than 7 return the
    empty list (the product name is then never looked at). *)
Theorem exact_match_long_time (observation_time product_name : string)
  (files : list string) :
  (forall f, In f files -> (4 <= List.length (tokens f))%nat) ->
  ((4 < String.length observation_time)%nat ->
   abi_matches observation_time product_name files = Ok [])
  /\ ((7 < String.length observation_time)%nat ->
      nucaps_matches observation_time files = Ok []).
Proof.
  intros Hall. split; intros Hlong.
  - unfold abi_matches. rewrite (comprehension_filter _ (fun _ => false)).
    + f_equal. now apply filter_none.
    + intros f Hf. rewrite abi_cond_spec.
      rewrite (nth_error_nth_default _ 3 EmptyString (Hall f Hf)).
      destruct (String.eqb _ observation_time) eqn:Heq; [| reflexivity].
      apply String.eqb_eq in Heq. exfalso.
      apply (f_equal String.length) in Heq. unfold slice in Heq.
      rewrite substring_length in Heq. lia.
  - unfold nucaps_matches. rewrite (comprehension_filter _ (fun _ => false)).
    + f_equal. now apply filter_none.
    + intros f Hf. rewrite nucaps_cond_spec.
      rewrite (nth_error_nth_default _ 3 EmptyString (Hall f Hf)).
      destruct (String.eqb _ observation_time) eqn:Heq; [| reflexivity].
      apply String.eqb_eq in Heq. exfalso.
      apply (f_equal String.length) in Heq. unfold slice in Heq.
      rewrite substring_length in Heq. lia.
Qed.

Lemma exact_match_long_time_witness :
  abi_matches "203055" "MCMIPM2" [mcmipm_file] = Ok []
  /\ nucaps_matches "19075100" nucaps_files = Ok [].
Proof.
  split.
  - apply (proj1 (exact_match_long_time "203055" "MCMIPM2" [mcmipm_file]
                    ltac:(intros f [<- | []]; cbn; lia))).
    cbn. lia.
  - apply (proj2 (exact_match_long_time "19075100" "" nucaps_files
                    ltac:(intros f [<- | [<- | []]]; cbn; lia))).
    cbn. lia.
Defined.

(** X12: a wider window selects at least as much: every name that the
    VIIRS selection returns for a window is returned for any window that
    contains it. *)
Theorem viirs_matches_widen (lo hi lo' hi' : string)
  (files r r' : list string) :
  str_le lo' lo = true -> str_le hi hi' = true ->
  viirs_matches lo hi files = Ok r ->
  viirs_matches lo' hi' files = Ok r' ->
  forall f, In f r -> In f r'.
Proof.
  intros Hlo Hhi Hr Hr'.
  apply comprehension_ok_inv in Hr as [_ ->].
  apply comprehension_ok_inv in Hr' as [Hall ->].
  intros f Hf. apply filter_In in Hf as [Hin Hf].
  apply filter_In. split; [exact Hin |].
  rewrite viirs_cond_spec in *.
  destruct (nth_error (tokens f) 3) as [tok|]; [| discriminate].
  now apply (in_range_widen lo hi).
Qed.

Lemma viirs_matches_widen_witness : In (nth 1 af_files EmptyString) af_files.
Proof.
  apply (viirs_matches_widen "2116" "2119" "2115" "2120" af_files
           [nth 1 af_files EmptyString; nth 2 af_files EmptyString]
           af_files eq_refl eq_refl eq_refl eq_refl).
  left. reflexivity.
Defined.

(** X13: the range test includes both of its bounds when they are in
    order, and holds of no string when they are not. *)
Theorem in_range_bounds (lo hi : string) :
  in_range lo hi lo = str_le lo hi
  /\ in_range lo hi hi = str_le lo hi
  /\ (str_le lo hi = false -> forall t, in_range lo hi t = false).
Proof.
  split; [| split].
  - unfold in_range, str_ge. now rewrite string_compare_refl.
  - unfold in_range. rewrite str_ge_le. unfold str_le at 2.
    rewrite string_compare_refl. apply andb_true_r.
  - intros Hbad t. destruct (in_range lo hi t) eqn:Hin; [| reflexivity].
    unfold in_range in Hin. rewrite str_ge_le in Hin.
    apply andb_prop in Hin as [H1 H2].
    now rewrite (str_le_trans _ _ _ H1 H2) in Hbad.
Qed.

Lemma in_range_bounds_witness : in_range "2359" "0001" "0000" = false.
Proof.
  apply (proj2 (proj2 (in_range_bounds "2359" "0001")) eq_refl "0000").
Defined.

End WholeSelections.

(** ** Keys and their segments *)

Section KeyFacts.

Import KeyBuilder Extractor.


(** The decimal digits of [v], padded or not, read back as [v]. *)
Lemma segment_digits (v w : Z) :
  0 <= v ->
  all_digits (segment v w) = true /\ value (segment v w) = v.
Proof.
  intros Hv. unfold segment. rewrite str_nonneg by exact Hv.
  destruct (digits_spec v Hv) as (c & D & Heq & Hs & Hall & Hval & _).
  rewrite Heq, zfill_unsigned by exact Hs. split.
  - now rewrite all_digits_app, all_digits_zeros, Hall.
  - unfold value in *. now rewrite value_from_app, value_from_zeros.
Qed.


Lemma segment_len_fits (v w : Z) :
  0 <= v < 10 ^ w -> 1 <= w -> len (segment v w) = w.
Proof.
  intros Hv Hw. unfold segment.
  rewrite zfill_length, str_nonneg by lia.
  pose proof (digits_len_bound v w Hv Hw). lia.
Qed.

Lemma digits_first_not_sign (v : Z) :
  0 <= v -> exists c D, digits v = String c D /\ is_sign c = false.
Proof.
  intros Hv. destruct (digits_spec v Hv) as (c & D & Heq & Hs & _).
  now exists c, D.
Qed.

Lemma digits_injective (v1 v2 : Z) :
  0 <= v1 -> 0 <= v2 -> digits v1 = digits v2 -> v1 = v2.
Proof.
  intros H1 H2 Heq.
  destruct (digits_spec v1 H1) as (c1 & D1 & E1 & _ & _ & V1 & _).
  destruct (digits_spec v2 H2) as (c2 & D2 & E2 & _ & _ & V2 & _).
  rewrite <- V1, <- V2, <- E1, <- E2. now rewrite Heq.
Qed.

Lemma str_inj (v1 v2 : Z) : str v1 = str v2 -> v1 = v2.
Proof.
  unfold str.
  destruct (v1 <? 0) eqn:S1; destruct (v2 <? 0) eqn:S2;
    [apply Z.ltb_lt in S1, S2 | apply Z.ltb_lt in S1; apply Z.ltb_ge in S2
     | apply Z.ltb_ge in S1; apply Z.ltb_lt in S2
     | apply Z.ltb_ge in S1, S2]; intros Heq.
  - injection Heq as Heq. apply digits_injective in Heq; lia.
  - destruct (digits_first_not_sign v2 S2) as (c & D & E & Hs).
    rewrite E in Heq. injection Heq as <- _. discriminate Hs.
  - destruct (digits_first_not_sign v1 S1) as (c & D & E & Hs).
    rewrite E in Heq. injection Heq as -> _. discriminate Hs.
  - now apply digits_injective.
Qed.

Lemma count_slash_digits (s : string) :
  all_digits s = true -> count_char "/" s = 0%nat.
Proof.
  induction s as [|c s IH]; [reflexivity |].
  cbn [all_digits count_char]. intros H.
  apply andb_prop in H as [Hc Hall].
  destruct (Ascii.eqb c "/") eqn:Hx; [| now apply IH].
  apply Ascii.eqb_eq in Hx. subst c. discriminate Hc.
Qed.

Lemma count_slash_zeros (n : nat) : count_char "/" (repeat_char "0" n) = 0%nat.
Proof. induction n as [|n IH]; [reflexivity | exact IH]. Qed.

Lemma count_slash_str (v : Z) : count_char "/" (str v) = 0%nat.
Proof.
  unfold str. destruct (v <? 0) eqn:Hs.
  - apply Z.ltb_lt in Hs. cbn [count_char].
    change (Ascii.eqb "-" "/") with false. cbv iota.
    destruct (digits_spec (- v) ltac:(lia)) as (c & D & E & _ & Hall & _).
    rewrite E. now apply count_slash_digits.
  - apply Z.ltb_ge in Hs.
    destruct (digits_spec v Hs) as (c & D & E & _ & Hall & _).
    rewrite E. now apply count_slash_digits.
Qed.

Lemma count_slash_zfill (s : string) (w : Z) :
  count_char "/" (zfill s w) = count_char "/" s.
Proof.
  unfold zfill. destruct (w <=? len s); [reflexivity |].
  destruct s as [|c rest]; [apply count_slash_zeros |].
  destruct (is_sign c).
  - cbn [count_char]. rewrite count_char_app, count_slash_zeros.
    reflexivity.
  - now rewrite count_char_app, count_slash_zeros.
Qed.

Lemma count_slash_segment (v w : Z) : count_char "/" (segment v w) = 0%nat.
Proof. unfold segment. now rewrite count_slash_zfill, count_slash_str. Qed.

Lemma split_cons (a b : string) :
  count_char "/" a = 0%nat ->
  split "/" (a ++ "/" ++ b) = a :: split "/" b.
Proof.
  intros Ha. change (a ++ "/" ++ b) with (a ++ String "/" b).
  now rewrite split_app, (split_no_sep _ _ Ha).
Qed.

Lemma data_path_tokens (bucket product : string) (year julian hour : Z) :
  count_char "/" bucket = 0%nat -> count_char "/" product = 0%nat ->
  split "/" (data_path bucket product year julian hour)
  = [bucket; product; str year; segment julian 3; segment hour 2].
Proof.
  intros Hb Hp. unfold data_path.
  rewrite (split_cons _ _ Hb), (split_cons _ _ Hp).
  rewrite (split_cons _ _ (count_slash_str year)).
  rewrite (split_cons _ _ (count_slash_segment julian 3)).
  now rewrite (split_no_sep _ _ (count_slash_segment hour 2)).
Qed.



(** X15: segments of one width sort as their values: for non-negative
    values that fit the pad width, the lexicographic comparison of the
    segments is the comparison of the values, so distinct values have
    distinct segments. *)
Theorem segment_order (v1 v2 w : Z) :
  0 <= v1 < 10 ^ w -> 0 <= v2 < 10 ^ w -> 1 <= w ->
  String.compare (segment v1 w) (segment v2 w) = (v1 ?= v2).
Proof.
  intros H1 H2 Hw.
  destruct (segment_digits v1 w (proj1 H1)) as [D1 V1].
  destruct (segment_digits v2 w (proj1 H2)) as [D2 V2].
  rewrite compare_digits, V1, V2; try assumption; [reflexivity |].
  pose proof (segment_len_fits v1 w H1 Hw) as L1.
  pose proof (segment_len_fits v2 w H2 Hw) as L2.
  unfold len in L1, L2. lia.
Qed.

Lemma segment_order_witness :
  String.compare (segment 9 3) (segment 10 3) = (9 ?= 10).
Proof. apply (segment_order 9 10 3); cbn; lia. Defined.

(** X16: [str] is one-to-one on the integers, negative ones included. *)
Theorem str_injective (v1 v2 : Z) : str v1 = str v2 -> v1 = v2.
Proof. apply str_inj. Qed.

Lemma str_injective_witness : 2022 = 2022.
Proof. apply (str_injective 2022 2022). reflexivity. Defined.

(** X17: a key of the GOES-R bucket determines what it was built from:
    two keys built from bucket and product names without ['/'] and
    non-negative day and hour numbers are equal only when all five
    components are. *)
Theorem data_path_injective (bucket product bucket' product' : string)
  (year julian hour year' julian' hour' : Z) :
  count_char "/" bucket = 0%nat -> count_char "/" product = 0%nat ->
  count_char "/" bucket' = 0%nat -> count_char "/" product' = 0%nat ->
  0 <= julian -> 0 <= hour -> 0 <= julian' -> 0 <= hour' ->
  data_path bucket product year julian hour
  = data_path bucket' product' year' julian' hour' ->
  bucket = bucket' /\ product = product' /\ year = year'
  /\ julian = julian' /\ hour = hour'.
Proof.
  intros Hb Hp Hb' Hp' Hj Hh Hj' Hh' Heq.
  apply (f_equal (split "/")) in Heq.
  rewrite !data_path_tokens in Heq by assumption.
  injection Heq as -> -> Hy Hjs Hhs.
  repeat split.
  - now apply str_inj.
  - destruct (segment_digits julian 3 Hj) as [_ <-].
    destruct (segment_digits julian' 3 Hj') as [_ <-]. now rewrite Hjs.
  - destruct (segment_digits hour 2 Hh) as [_ <-].
    destruct (segment_digits hour' 2 Hh') as [_ <-]. now rewrite Hhs.
Qed.

Lemma data_path_injective_witness :
  "noaa-goes16" = "noaa-goes16" /\ "ABI-L2-MCMIPM" = "ABI-L2-MCMIPM"
  /\ 2022 = 2022 /\ 336 = 336 /\ 20 = 20.
Proof.
  apply (data_path_injective "noaa-goes16" "ABI-L2-MCMIPM"
           "noaa-goes16" "ABI-L2-MCMIPM" 2022 336 20 2022 336 20);
    (reflexivity || lia).
Defined.

(** X18: a key of the JPSS bucket built from names without ['/'] splits
    back into its seven segments, and on a valid date the month and day
    segments have two characters each. *)
Theorem files_path_split (bucket satellite sensor product : string)
  (year month day : Z) :
  count_char "/" bucket = 0%nat -> count_char "/" satellite = 0%nat ->
  count_char "/" sensor = 0%nat -> count_char "/" product = 0%nat ->
  split "/" (files_path bucket satellite sensor product year month day)
  = [bucket; satellite; sensor; product; str year; segment month 2;
     segment day 2]
  /\ (valid_date year month day ->
      len (segment month 2) = 2 /\ len (segment day 2) = 2).
Proof.
  intros Hb Hsat Hsen Hp. split.
  - unfold files_path.
    rewrite (split_cons _ _ Hb), (split_cons _ _ Hsat).
    rewrite (split_cons _ _ Hsen), (split_cons _ _ Hp).
    rewrite (split_cons _ _ (count_slash_str year)).
    rewrite (split_cons _ _ (count_slash_segment month 2)).
    now rewrite (split_no_sep _ _ (count_slash_segment day 2)).
  - intros (_ & Hm & Hd).
    assert (Hml : month_length (gregorian_leap year) month <= 31).
    { apply month_cases in Hm.
      repeat (destruct Hm as [-> | Hm]); [.. | subst];
        cbn [month_length]; destruct (gregorian_leap year); lia. }
    split; apply segment_len_fits; change (10 ^ 2) with 100; lia.
Qed.

Lemma files_path_split_witness :
  split "/" (files_path "noaa-jpss" "NOAA20" "SOUNDINGS" "NOAA20_NUCAPS-EDR"
               2022 11 29)
  = ["noaa-jpss"; "NOAA20"; "SOUNDINGS"; "NOAA20_NUCAPS-EDR"; str 2022;
     segment 11 2; segment 29 2]
  /\ len (segment 11 2) = 2 /\ len (segment 29 2) = 2.
Proof.
  pose proof (files_path_split "noaa-jpss" "NOAA20" "SOUNDINGS"
                "NOAA20_NUCAPS-EDR" 2022 11 29
                eq_refl eq_refl eq_refl eq_refl) as [Hsplit Hlen].
  split; [exact Hsplit | apply Hlen].
  unfold valid_date, in_month, Datetime.MINYEAR, Datetime.MAXYEAR.
  cbn. lia.
Defined.

End KeyFacts.

(** ** The day of the year and the key *)

Section CalendarKeyFacts.

Import Datetime KeyBuilder.

Ltac all_months H :=
  apply month_cases in H;
  repeat (destruct H as [-> | H]); [.. | subst].

Ltac eval_days_elapsed :=
  repeat match goal with
  | |- context [days_elapsed ?l ?m 0] =>
      let v := eval vm_compute in (days_elapsed l m 0) in
      change (days_elapsed l m 0) with v
  end.

Lemma days_elapsed_order (leap : bool) (month day month' day' : Z) :
  in_month leap month day -> in_month leap month' day' ->
  (days_elapsed leap month day < days_elapsed leap month' day'
   <-> month < month' \/ (month = month' /\ day < day')).
Proof.
  intros [Hm Hd] [Hm' Hd'].
  rewrite (days_elapsed_split leap month day),
    (days_elapsed_split leap month' day').
  all_months Hm; all_months Hm'; destruct leap;
    cbn [month_length] in Hd, Hd'; eval_days_elapsed; lia.
Qed.

Lemma days_elapsed_year (leap : bool) (month day : Z) :
  in_month leap month day ->
  1 <= days_elapsed leap month day <= (if leap then 366 else 365).
Proof.
  intros [Hm Hd]. rewrite days_elapsed_split.
  all_months Hm; destruct leap; cbn [month_length] in Hd;
    eval_days_elapsed; lia.
Qed.

Lemma julian_day_ok (year month day : Z) :
  valid_date year month day ->
  julian_day year month day
  = Ok (segment (days_elapsed (gregorian_leap year) month day) 3).
Proof.
  intros Hv. unfold julian_day. rewrite new_datetime_valid by exact Hv.
  cbn [bind]. unfold strftime_j. rewrite yday_spec by apply Hv.
  reflexivity.
Qed.

(** X19: within a year, the strings of the resolver sort as the dates:
    for two valid dates of one year, the string of the first is
    lexicographically smaller exactly when the first date is earlier,
    and the strings are equal only for the same date. *)
Theorem julian_day_order (year month day month' day' : Z) :
  valid_date year month day -> valid_date year month' day' ->
  exists s s' : string,
    julian_day year month day = Ok s
    /\ julian_day year month' day' = Ok s'
    /\ (String.compare s s' = Lt
        <-> month < month' \/ (month = month' /\ day < day'))
    /\ (s = s' <-> month = month' /\ day = day').
Proof.
  intros Hv Hv'. rewrite !julian_day_ok by assumption.
  destruct Hv as [_ Hin], Hv' as [_ Hin'].
  set (leap := gregorian_leap year) in *.
  pose proof (days_elapsed_bounds _ _ _ Hin) as Hb.
  pose proof (days_elapsed_bounds _ _ _ Hin') as Hb'.
  set (n := days_elapsed leap month day) in *.
  set (n' := days_elapsed leap month' day') in *.
  destruct (three_digits n ltac:(lia)) as (L & D & V).
  destruct (three_digits n' ltac:(lia)) as (L' & D' & V').
  exists (segment n 3), (segment n' 3). unfold segment.
  pose proof (days_elapsed_order leap month day month' day' Hin Hin') as Hlt.
  pose proof (days_elapsed_order leap month' day' month day Hin' Hin) as Hgt.
  fold n n' in Hlt, Hgt.
  split; [reflexivity | split; [reflexivity | split]].
  - rewrite compare_digits, V, V' by (try assumption; lia).
    rewrite Z.compare_lt_iff. exact Hlt.
  - split.
    + intros Heq.
      assert (Hn : n = n') by (rewrite <- V, <- V'; now rewrite Heq).
      lia.
    + intros [-> ->]. reflexivity.
Qed.

Lemma julian_day_order_witness :
  exists s s' : string,
    julian_day 2022 2 28 = Ok s
    /\ julian_day 2022 3 1 = Ok s'
    /\ (String.compare s s' = Lt <-> 2 < 3 \/ (2 = 3 /\ 28 < 1))
    /\ (s = s' <-> 2 = 3 /\ 28 = 1).
Proof.
  apply (julian_day_order 2022 2 28 3 1);
    unfold valid_date, in_month, MINYEAR, MAXYEAR; cbn; lia.
Defined.

(** X20: the string of the resolver goes through the Key Builder
    unchanged: on a valid date it reads as a number from 1 to 365 (366
    in a leap year), and that number rendered on three characters, as in
    [data_path], is the string itself. *)
Theorem julian_day_segment (year month day : Z) :
  valid_date year month day ->
  exists s : string,
    julian_day year month day = Ok s
    /\ 1 <= value s <= (if gregorian_leap year then 366 else 365)
    /\ segment (value s) 3 = s.
Proof.
  intros Hv. rewrite julian_day_ok by exact Hv.
  destruct Hv as [_ Hin].
  pose proof (days_elapsed_year _ _ _ Hin) as Hb.
  exists (segment (days_elapsed (gregorian_leap year) month day) 3).
  assert (Hval : value (segment (days_elapsed (gregorian_leap year) month day) 3)
                 = days_elapsed (gregorian_leap year) month day).
  { unfold segment. apply three_digits.
    destruct (gregorian_leap year); lia. }
  rewrite Hval. repeat split; try reflexivity; apply Hb.
Qed.

Lemma julian_day_segment_witness :
  exists s : string,
    julian_day 2022 12 2 = Ok s
    /\ 1 <= value s <= (if gregorian_leap 2022 then 366 else 365)
    /\ segment (value s) 3 = s.
Proof.
  apply (julian_day_segment 2022 12 2).
  unfold valid_date, in_month, MINYEAR, MAXYEAR. cbn. lia.
Defined.

End CalendarKeyFacts.

(** ** Printed previews *)

Section PreviewFacts.

Import Preview.

Lemma print_names_spec (files : list string) :
  print_names files = Ok (map last_segment files).
Proof.
  induction files as [|file files IH]; [reflexivity |].
  cbn [print_names map]. rewrite basename_spec, IH. reflexivity.
Qed.

(** X21: the two printing loops of cell 15 never raise, also on an empty
    listing.  They print the last path segment of the first ten and of
    the last ten names; a listing of at most ten names is printed twice
    in full, and in a listing of twenty names or more no name is printed
    by both loops: the first ten and the last ten are separate parts
    of the listing. *)
Theorem print_first_last_spec (files : list string) :
  print_first_last files
  = Ok (map last_segment (firstn 10 files)
        ++ map last_segment (skipn (List.length files - 10) files))%list
  /\ ((List.length files <= 10)%nat ->
      print_first_last files
      = Ok (map last_segment files ++ map last_segment files)%list)
  /\ ((20 <= List.length files)%nat ->
      exists middle,
        files = (firstn 10 files ++ middle
                 ++ skipn (List.length files - 10) files)%list).
Proof.
  assert (Hrun : print_first_last files
                 = Ok (map last_segment (firstn 10 files)
                       ++ map last_segment
                            (skipn (List.length files - 10) files))%list).
  { unfold print_first_last, first_n, last_n.
    rewrite !print_names_spec. reflexivity. }
  split; [exact Hrun | split].
  - intros Hshort. rewrite Hrun.
    rewrite firstn_all2 by exact Hshort.
    replace (List.length files - 10)%nat with 0%nat by lia.
    reflexivity.
  - intros Hlong.
    exists (firstn (List.length files - 20) (skipn 10 files)).
    replace (skipn (List.length files - 10) files)
      with (skipn (List.length files - 20) (skipn 10 files))
      by (rewrite skipn_skipn; f_equal; lia).
    now rewrite firstn_skipn, firstn_skipn.
Qed.

Lemma print_first_last_spec_witness :
  print_first_last (@nil string) = Ok []
  /\ print_first_last af_files
     = Ok (map last_segment af_files ++ map last_segment af_files)%list
  /\ exists middle,
       List.repeat mcmipm_file 25
       = (firstn 10 (List.repeat mcmipm_file 25) ++ middle
          ++ skipn (List.length (List.repeat mcmipm_file 25) - 10)
               (List.repeat mcmipm_file 25))%list.
Proof.
  split; [| split].
  - apply (proj1 (print_first_last_spec [])).
  - apply (proj1 (proj2 (print_first_last_spec af_files))). cbn. lia.
  - apply (proj2 (proj2 (print_first_last_spec (List.repeat mcmipm_file 25)))).
    cbn. lia.
Defined.

End PreviewFacts.

(** ** Keys and bare names *)

Section KeysAndNames.

Import Extractor Selector.

Lemma comprehension_ext {A : Type} (cond cond' : A -> result bool)
  (xs : list A) :
  (forall x, cond x = cond' x) ->
  comprehension cond xs = comprehension cond' xs.
Proof.
  intros Hext. induction xs as [|x xs IH]; [reflexivity |].
  cbn [comprehension]. now rewrite Hext, IH.
Qed.

Lemma comprehension_map {A B : Type} (g : A -> B) (cond : B -> result bool)
  (xs : list A) :
  comprehension cond (map g xs)
  = match comprehension (fun x => cond (g x)) xs with
    | Ok r => Ok (map g r)
    | Raise e => Raise e
    end.
Proof.
  induction xs as [|x xs IH]; [reflexivity |].
  cbn [map comprehension]. destruct (cond (g x)) as [b | e]; cbn [bind];
    [| reflexivity].
  rewrite IH.
  destruct (comprehension (fun x => cond (g x)) xs) as [r | e]; cbn [bind];
    [| reflexivity].
  now destruct b.
Qed.

Lemma tokens_of_key (prefix rest : string) :
  tokens (prefix ++ "/" ++ rest) = tokens rest
  /\ dash_tokens (prefix ++ "/" ++ rest) = dash_tokens rest.
Proof.
  change (prefix ++ "/" ++ rest) with (prefix ++ String "/" rest).
  unfold dash_tokens.
  change (tokens (prefix ++ String "/" rest))
    with (split "_" (last_segment (prefix ++ String "/" rest))).
  change (tokens rest) with (split "_" (last_segment rest)).
  now rewrite last_segment_app.
Qed.

Lemma conds_of_key (prefix rest a b : string) :
  abi_cond a b (prefix ++ "/" ++ rest) = abi_cond a b rest
  /\ nucaps_cond a (prefix ++ "/" ++ rest) = nucaps_cond a rest
  /\ viirs_cond a b (prefix ++ "/" ++ rest) = viirs_cond a b rest.
Proof.
  rewrite !abi_cond_spec, !nucaps_cond_spec, !viirs_cond_spec.
  destruct (tokens_of_key prefix rest) as [-> ->]. repeat split.
Qed.

(** X22: the selections look at the last path segment only, whatever
    ['_'] and ['-'] the directory part holds: selecting among the keys
    [prefix + '/' + name] gives the keys of the names selected among the
    bare names, and raises when that selection raises. *)
Theorem matches_of_keys (prefix a b : string) (names : list string) :
  let key := fun name => prefix ++ "/" ++ name in
  let keys_of := fun r : result (list string) =>
                   match r with
                   | Ok selected => Ok (map key selected)
                   | Raise e => Raise e
                   end in
  abi_matches a b (map key names) = keys_of (abi_matches a b names)
  /\ nucaps_matches a (map key names) = keys_of (nucaps_matches a names)
  /\ viirs_matches a b (map key names) = keys_of (viirs_matches a b names).
Proof.
  cbv zeta. unfold abi_matches, nucaps_matches, viirs_matches.
  rewrite !comprehension_map.
  rewrite (comprehension_ext
             (fun x => abi_cond a b (prefix ++ "/" ++ x)) (abi_cond a b))
    by (intros x; apply (conds_of_key prefix x a b)).
  rewrite (comprehension_ext
             (fun x => nucaps_cond a (prefix ++ "/" ++ x)) (nucaps_cond a))
    by (intros x; apply (conds_of_key prefix x a b)).
  rewrite (comprehension_ext
             (fun x => viirs_cond a b (prefix ++ "/" ++ x)) (viirs_cond a b))
    by (intros x; apply (conds_of_key prefix x a b)).
  repeat split.
Qed.

End KeysAndNames.
